(** * ChartCreator: data preparation and chart configuration

    A shallow embedding of [visualization-app/src/visualization.py] and
    [visualization-app/src/utils.py].

    The program is a thin layer over two libraries.  What the program itself
    decides (the order of checks, which columns are touched, what is caught
    and what is returned) is embedded from the source.  What pandas and
    plotly do is modelled next to it:

    - a data frame is a row count and an ordered association list of named
      columns (duplicate names are possible, as in pandas);
    - a cell is a string or a float; [NaN] is the missing-value marker
      ([None], [pd.NA] and [NaN] are not told apart);
    - the scalar parser behind [pd.to_numeric] and the three plotly
      constructors are parameters of the development;
    - [pd.to_numeric(..., errors='ignore')] is the pandas 1.x and 2.x call
      that returns its argument unchanged when a string does not parse. *)

Set Warnings "-notation-overridden,-rewrite-rw,-notation-incompatible-prefix".
Set Warnings "-ambiguous-paths,-postfix-notation-not-level-1".
From HB Require Import structures.
From Stdlib Require Import String ZArith QArith DecimalString.
From mathcomp Require Import boot.

Set Implicit Arguments.
Unset Strict Implicit.
Unset Printing Implicit Defensive.

HB.instance Definition _ := hasDecEq.Build string String.eqb_spec.

Close Scope Q_scope.
Local Open Scope string_scope.
Local Open Scope seq_scope.
Local Open Scope nat_scope.

(** ** Python values shared by both files *)

(** The exceptions that occur in the program, with [str(e)] as payload. *)
Inductive exn :=
| ValueError (msg : string)
| TypeError (msg : string)
| AttributeError (msg : string)
| KeyError (msg : string)
| Exception (msg : string).

Definition str (e : exn) : string :=
  match e with
  | ValueError m | TypeError m | AttributeError m | KeyError m
  | Exception m => m
  end.

(** A computation that returns or raises. *)
Definition result (A : Type) : Type := (exn + A)%type.

Definition ret {A} (a : A) : result A := inr a.
Definition raise {A} (e : exn) : result A := inl e.
Definition bind {A B} (m : result A) (k : A -> result B) : result B :=
  match m with inl e => inl e | inr a => k a end.

Notation "'let!' x ':=' m 'in' k" := (bind m (fun x => k))
  (at level 10, x name, m at level 100, k at level 200).

(** What streamlit is asked to show. *)
Inductive ui_event :=
| StError (msg : string)
| StCode (trace : exn).

(** ** Tables *)

Inductive float := Finite (q : Q) | PosInf | NegInf | NaN.

Inductive cell := Text (s : string) | Num (x : float).

(** Structural equality of cells, for membership in lists of cells and of
    columns; it is not Python's [==] (here [NaN] equals itself). *)
Definition float_eqb (x y : float) : bool :=
  match x, y with
  | Finite p, Finite q =>
      Z.eqb (Qnum p) (Qnum q) && Pos.eqb (Qden p) (Qden q)
  | PosInf, PosInf | NegInf, NegInf | NaN, NaN => true
  | _, _ => false
  end.

Lemma float_eqP : Equality.axiom float_eqb.
Proof.
case=> [[a b]|||] [[c d]|||] /=; try by constructor.
case: Z.eqb_spec => [->|H] /=; last by constructor; case.
by case: Pos.eqb_spec => [->|H]; constructor => //; case.
Qed.

HB.instance Definition _ := hasDecEq.Build float float_eqP.

Definition cell_eqb (c d : cell) : bool :=
  match c, d with
  | Text s, Text t => s == t
  | Num x, Num y => x == y
  | _, _ => false
  end.

Lemma cell_eqP : Equality.axiom cell_eqb.
Proof.
case=> [s|x] [t|y] /=; try by constructor.
  by case: eqP => [->|H]; constructor => //; case.
by case: eqP => [->|H]; constructor => //; case.
Qed.

HB.instance Definition _ := hasDecEq.Build cell cell_eqP.

Definition Series := seq cell.

Record DataFrame := Frame { nrows : nat; cols : seq (string * Series) }.

(** [df.columns] *)
Definition columns (df : DataFrame) : seq string := [seq c.1 | c <- cols df].

(** Every column has one cell per row. *)
Definition rectangular (df : DataFrame) : bool :=
  all (fun c => size c.2 == nrows df) (cols df).

(** [pd.isna] on a cell. *)
Definition isna (c : cell) : bool := if c is Num NaN then true else false.
Definition notna (c : cell) : bool := ~~ isna c.

Definition is_inf (c : cell) : bool :=
  match c with Num PosInf | Num NegInf => true | _ => false end.

Definition is_text (c : cell) : bool := if c is Text _ then true else false.

(** [df.empty]: some axis has length zero. *)
Definition df_empty (df : DataFrame) : bool :=
  (nrows df == 0) || (size (columns df) == 0).

(** [Index.duplicated()] with the default [keep='first']: an entry is marked
    when an equal one stands before it. *)
Fixpoint duplicated_from (seen s : seq string) : bitseq :=
  if s is x :: s' then (x \in seen) :: duplicated_from (x :: seen) s'
  else [::].

Definition duplicated (s : seq string) : bitseq := duplicated_from [::] s.

(** [.any()] *)
Definition any (m : bitseq) : bool := has id m.

(** ** visualization.py: validate_data *)

Definition validate_data (df : option DataFrame) : bool * string :=
  match df with
  | None => (false, "No data provided")
  | Some df =>
      if df_empty df then (false, "The uploaded file is empty")
      else if size (columns df) < 2
      then (false, "File must contain at least two columns")
      else if any (duplicated (columns df))
      then (false, "File contains duplicate column names")
      else (true, "")
  end.

(** The three validation errors of the specification and the message each
    one is reported with. *)
Inductive validation_error := EmptyInput | InsufficientColumns | DuplicateColumns.

Definition validation_message (e : validation_error) : string :=
  match e with
  | EmptyInput => "The uploaded file is empty"
  | InsufficientColumns => "File must contain at least two columns"
  | DuplicateColumns => "File contains duplicate column names"
  end.

Definition invalid (e : validation_error) : bool * string :=
  (false, validation_message e).

Definition valid : bool * string := (true, "").

(** The specification's list of outcomes, read top to bottom. *)
Inductive validate_spec (df : DataFrame) : bool * string -> Prop :=
| ValidateEmpty :
    nrows df = 0 \/ size (columns df) = 0 ->
    validate_spec df (invalid EmptyInput)
| ValidateInsufficient :
    0 < nrows df -> 0 < size (columns df) -> size (columns df) < 2 ->
    validate_spec df (invalid InsufficientColumns)
| ValidateDuplicate :
    0 < nrows df -> 2 <= size (columns df) -> ~~ uniq (columns df) ->
    validate_spec df (invalid DuplicateColumns)
| ValidateOk :
    0 < nrows df -> 2 <= size (columns df) -> uniq (columns df) ->
    validate_spec df valid.

(** ** The pandas calls made by process_data

    [process_data] is written against this interface: every call may return
    or raise.  [pandas_model] below is the implementation the other
    theorems are about. *)

Inductive axis := Rows | Columns.

Inductive dtype := object | float64.

Inductive errors := ErrorsRaise | ErrorsIgnore.

(** What [df[col]] evaluates to: a column when the name occurs once, a
    sub-frame when it occurs several times. *)
Inductive item := ISeries (s : Series) | IFrame (df : DataFrame).

Record pandas := Pandas {
  (** [df.dropna(how='all')] and [df.dropna(axis=1, how='all')] *)
  dropna : axis -> DataFrame -> result DataFrame;
  (** [df.replace([float('inf'), float('-inf')], pd.NA)] *)
  replace_inf : DataFrame -> result DataFrame;
  (** [df.select_dtypes(include=[t])] *)
  select_dtypes : dtype -> DataFrame -> result DataFrame;
  (** [df[col]] *)
  getitem : DataFrame -> string -> result item;
  (** [pd.to_numeric(x, errors=...)] *)
  to_numeric : errors -> item -> result Series;
  (** [df[col] = s] *)
  setitem : DataFrame -> string -> Series -> result DataFrame
}.

(** A column holding a string has dtype [object]; the columns without
    strings are the numeric ones. *)
Definition series_dtype (s : Series) : dtype :=
  if has is_text s then object else float64.

(** [x.dtype]: a frame has no such attribute. *)
Definition get_dtype (x : item) : result dtype :=
  match x with
  | ISeries s => ret (series_dtype s)
  | IFrame _ =>
      raise (AttributeError "'DataFrame' object has no attribute 'dtype'")
  end.

(** ** visualization.py: process_data *)

(** The local variable [df] together with the exception in flight, if any:
    an assignment [df = f(df)] whose right-hand side raises leaves [df] as
    it was. *)
Definition frame_state : Type := (DataFrame * option exn)%type.

Definition assign (f : DataFrame -> result DataFrame) (st : frame_state)
  : frame_state :=
  match st with
  | (df, Some e) => (df, Some e)
  | (df, None) =>
      match f df with
      | inr df' => (df', None)
      | inl e => (df, Some e)
      end
  end.

(** [try: body except Exception: continue] around one loop iteration. *)
Definition try_continue (body : DataFrame -> result DataFrame)
    (df : DataFrame) : DataFrame :=
  match body df with inr df' => df' | inl _ => df end.

Section ProcessData.

Variable pd : pandas.

(** Lines 36-37: the body of the inner [try]. *)
Definition coerce_column (col : string) (df : DataFrame) : result DataFrame :=
  let! x := getitem pd df col in
  let! t := get_dtype x in
  if t is object then
    let! s := to_numeric pd ErrorsIgnore x in
    setitem pd df col s
  else ret df.

(** Lines 34-39: [for col in df.columns]. *)
Definition coerce_columns (df : DataFrame) : DataFrame :=
  foldl (fun d col => try_continue (coerce_column col) d) df (columns df).

(** Lines 27-41: the body of the outer [try]. *)
Definition process_body (df : DataFrame) : frame_state :=
  assign (fun d => ret (coerce_columns d))
    (assign (replace_inf pd)
      (assign (dropna pd Columns)
        (assign (dropna pd Rows) (df, None)))).

(** Line 43: the message the handler shows for an exception. *)
Definition diagnostic (e : exn) : seq ui_event :=
  [:: StError ("Error processing data: " ++ str e)].

(** [process_data] returns [df]; what it passes to [st.error] is the second
    component. *)
Definition process_data_with (df : DataFrame) : DataFrame * seq ui_event :=
  match process_body df with
  | (df', None) => (df', [::])
  | (df', Some e) => (df', diagnostic e)
  end.


End ProcessData.

(** ** visualization.py: DataVisualizer.create_chart

    [create_chart] comes first; [initialize_session_state] and [run] follow
    the model of pandas, which [run] needs. *)

(** The three plotly constructors of the [chart_types] dictionary. *)
Inductive chart_kind := Sunburst | Treemap | Icicle.

(** [chart_types.get(name)] *)
Definition chart_types (name : string) : option chart_kind :=
  if name == "Sunburst" then Some Sunburst
  else if name == "Treemap" then Some Treemap
  else if name == "Icicle" then Some Icicle
  else None.

(** The [settings] dictionary.  The keys the function reads by subscript
    are fields; the keys it reads with [.get] may be absent ([None]). *)
Record settings := Settings {
  chart_type : string;
  path_columns : option (seq string);
  values_column : option string;
  color_column : option string;
  color_scheme : option string;
  width : Z;
  height : Z
}.

(** The keyword arguments handed to plotly; a key that was never set is
    [None]. *)
Record chart_params := ChartParams {
  data_frame : DataFrame;
  path : seq string;
  fig_width : Z;
  fig_height : Z;
  values : option string;
  color : option string;
  color_continuous_scale : option string
}.

(** The arguments of [fig.update_layout]. *)
Record layout := Layout {
  margin_t : Z; margin_l : Z; margin_r : Z; margin_b : Z;
  title_x : Q; title_y : Q
}.

Definition chart_layout : layout :=
  Layout 30 10 10 10 (1 # 2) (95 # 100).

(** Python's truth value of [settings.get(key)]. *)
Definition truthy_list (o : option (seq string)) : bool :=
  if o is Some (_ :: _) then true else false.

Definition truthy (o : option string) : bool :=
  if o is Some s then s != "" else false.

(** [settings.get(key) and settings[key] != sentinel] *)
Definition selected (sentinel : string) (o : option string) : bool :=
  truthy o && (o != Some sentinel).

Definition set_values (v : option string) (p : chart_params) : chart_params :=
  ChartParams (data_frame p) (path p) (fig_width p) (fig_height p)
    v (color p) (color_continuous_scale p).

Definition set_color (v : option string) (p : chart_params) : chart_params :=
  ChartParams (data_frame p) (path p) (fig_width p) (fig_height p)
    (values p) v (color_continuous_scale p).

Definition set_color_continuous_scale (v : option string) (p : chart_params)
  : chart_params :=
  ChartParams (data_frame p) (path p) (fig_width p) (fig_height p)
    (values p) (color p) v.

Module DataVisualizer.

(** Lines 73-111: the checks and the parameters, up to the plotly call. *)
Definition chart_call (df : DataFrame) (s : settings)
  : result (chart_kind * chart_params) :=
  if ~~ truthy_list (path_columns s)
  then raise (ValueError "No hierarchy columns selected")
  else
  let! chart_fn :=
    if chart_types (chart_type s) is Some fn then ret fn
    else raise (ValueError ("Invalid chart type: " ++ chart_type s)) in
  let path_cols := odflt [::] (path_columns s) in
  let missing_cols := [seq col <- path_cols | col \notin columns df] in
  if missing_cols != [::]
  then raise (ValueError ("Columns not found in data: "
                          ++ String.concat ", " missing_cols))
  else
  let params := ChartParams df path_cols (width s) (height s) None None None in
  let! params :=
    if selected "None" (values_column s) then
      let v := odflt "" (values_column s) in
      if v \notin columns df
      then raise (ValueError ("Values column '" ++ v ++ "' not found in data"))
      else ret (set_values (Some v) params)
    else ret params in
  let! params :=
    if selected "None" (color_column s) then
      let v := odflt "" (color_column s) in
      if v \notin columns df
      then raise (ValueError ("Color column '" ++ v ++ "' not found in data"))
      else ret (set_color (Some v) params)
    else ret params in
  let params :=
    if selected "Default" (color_scheme s)
    then set_color_continuous_scale (color_scheme s) params
    else params in
  ret (chart_fn, params).

Section CreateChart.

(** plotly: the figure type, the constructors and [update_layout]. *)
Variable figure : Type.
Variable px : chart_kind -> chart_params -> result figure.
Variable update_layout : layout -> figure -> figure.

(** Lines 73-122: the body of the [try]. *)
Definition create_chart_body (df : DataFrame) (s : settings) : result figure :=
  let! call := chart_call df s in
  let! fig := px call.1 call.2 in
  ret (update_layout chart_layout fig).

(** What the handler does with an exception; [show_error] is the state of
    the "Show detailed error" checkbox. *)
Definition report (show_error : bool) (e : exn) : seq ui_event :=
  StError ("Error creating visualization: " ++ str e)
  :: (if show_error then [:: StCode e] else [::]).

Definition create_chart (show_error : bool) (df : DataFrame) (s : settings)
  : option figure * seq ui_event :=
  match create_chart_body df s with
  | inr fig => (Some fig, [::])
  | inl e => (None, report show_error e)
  end.

End CreateChart.

End DataVisualizer.

Import DataVisualizer.

(** *** The configuration errors of the specification *)

Definition MissingHierarchy : exn := ValueError "No hierarchy columns selected".

Definition UnknownChartKind (kind : string) : exn :=
  ValueError ("Invalid chart type: " ++ kind).

(** ColumnNotFound, in its three wordings. *)
Definition PathColumnsNotFound (missing : seq string) : exn :=
  ValueError ("Columns not found in data: " ++ String.concat ", " missing).

Definition ValuesColumnNotFound (col : string) : exn :=
  ValueError ("Values column '" ++ col ++ "' not found in data").

Definition ColorColumnNotFound (col : string) : exn :=
  ValueError ("Color column '" ++ col ++ "' not found in data").

(** The five checks as the specification lists them, each on its own: the
    error it reports when it fails. *)
Definition check_hierarchy (df : DataFrame) (s : settings) : option exn :=
  if path_columns s is Some (_ :: _) then None else Some MissingHierarchy.

Definition check_kind (df : DataFrame) (s : settings) : option exn :=
  if chart_type s \in [:: "Sunburst"; "Treemap"; "Icicle"] then None
  else Some (UnknownChartKind (chart_type s)).

Definition check_path (df : DataFrame) (s : settings) : option exn :=
  let p := odflt [::] (path_columns s) in
  if all (fun col => col \in columns df) p then None
  else Some (PathColumnsNotFound [seq col <- p | col \notin columns df]).

(** A column setting counts as absent when it is unset, empty or the
    sentinel. *)
Definition absent (sentinel : string) (o : option string) : bool :=
  match o with
  | None => true
  | Some v => (v == "") || (v == sentinel)
  end.

Definition check_values (df : DataFrame) (s : settings) : option exn :=
  match values_column s with
  | Some v =>
      if ~~ absent "None" (Some v) && (v \notin columns df)
      then Some (ValuesColumnNotFound v) else None
  | None => None
  end.

Definition check_color (df : DataFrame) (s : settings) : option exn :=
  match color_column s with
  | Some v =>
      if ~~ absent "None" (Some v) && (v \notin columns df)
      then Some (ColorColumnNotFound v) else None
  | None => None
  end.

Definition checks : seq (DataFrame -> settings -> option exn) :=
  [:: check_hierarchy; check_kind; check_path; check_values; check_color].

(** The error of the first check that fails, if one does. *)
Definition first_failure (df : DataFrame) (s : settings) : option exn :=
  ohead (pmap (fun check => check df s) checks).

(** The value a call returned. *)
Definition error_free {A} (r : result A) : option A :=
  if r is inr a then Some a else None.

(** The error a call ended with. *)
Definition error_of {A} (r : result A) : option exn :=
  if r is inl e then Some e else None.

(** The parameters the specification's construction rules describe. *)
Definition assembled (df : DataFrame) (s : settings) : chart_params :=
  ChartParams df (odflt [::] (path_columns s)) (width s) (height s)
    (if absent "None" (values_column s) then None else values_column s)
    (if absent "None" (color_column s) then None else color_column s)
    (if absent "Default" (color_scheme s) then None else color_scheme s).

Definition with_values_column (v : option string) (s : settings) : settings :=
  Settings (chart_type s) (path_columns s) v (color_column s) (color_scheme s)
    (width s) (height s).

Definition with_color_column (v : option string) (s : settings) : settings :=
  Settings (chart_type s) (path_columns s) (values_column s) v (color_scheme s)
    (width s) (height s).

Definition with_color_scheme (v : option string) (s : settings) : settings :=
  Settings (chart_type s) (path_columns s) (values_column s) (color_column s) v
    (width s) (height s).

(** ** A model of pandas *)

(** The cell of a column at a row; past the end there is nothing. *)
Definition cell_at (s : Series) (i : nat) : cell := nth (Num NaN) s i.

(** Row [i] across the columns. *)
Definition row (df : DataFrame) (i : nat) : seq cell :=
  [seq cell_at c.2 i | c <- cols df].

(** The rows [dropna(how='all')] keeps: those with a cell that is not
    missing. *)
Definition row_mask (df : DataFrame) : bitseq :=
  mkseq (fun i => has notna (row df i)) (nrows df).

Definition dropna_rows (df : DataFrame) : DataFrame :=
  let m := row_mask df in
  Frame (count id m) [seq (c.1, mask m c.2) | c <- cols df].

(** [dropna(axis=1, how='all')] keeps the columns with a cell that is not
    missing. *)
Definition dropna_columns (df : DataFrame) : DataFrame :=
  Frame (nrows df) [seq c <- cols df | has notna c.2].

Definition inf_to_na (c : cell) : cell := if is_inf c then Num NaN else c.

Definition replace_infinities (df : DataFrame) : DataFrame :=
  Frame (nrows df) [seq (c.1, map inf_to_na c.2) | c <- cols df].

Definition frame_select_dtypes (t : dtype) (df : DataFrame) : DataFrame :=
  Frame (nrows df)
    [seq c <- cols df | match t, series_dtype c.2 with
                        | object, object | float64, float64 => true
                        | _, _ => false
                        end].

Definition frame_getitem (df : DataFrame) (col : string) : result item :=
  match [seq c <- cols df | c.1 == col] with
  | [::] => raise (KeyError col)
  | [:: c] => ret (ISeries c.2)
  | cs => ret (IFrame (Frame (nrows df) cs))
  end.

(** Assigning a column taken from the same frame: an existing name is
    overwritten in place, a new one is appended. *)
Definition frame_setitem (df : DataFrame) (col : string) (s : Series)
  : result DataFrame :=
  ret (Frame (nrows df)
         (if col \in columns df
          then [seq if c.1 == col then (c.1, s) else c | c <- cols df]
          else rcons (cols df) (col, s))).

Section Parser.

(** The scalar parser of [pd.to_numeric]: the float a string stands for, if
    any. *)
Variable parse : string -> option float.

Definition parse_cell (c : cell) : option cell :=
  match c with
  | Text s => omap Num (parse s)
  | Num x => Some (Num x)
  end.

(** All cells or none. *)
Fixpoint parse_series (s : Series) : option Series :=
  if s is c :: s' then
    match parse_cell c, parse_series s' with
    | Some c', Some r => Some (c' :: r)
    | _, _ => None
    end
  else Some [::].

Definition series_to_numeric (e : errors) (x : item) : result Series :=
  match x with
  | IFrame _ =>
      raise (TypeError "arg must be a list, tuple, 1-d array, or Series")
  | ISeries s =>
      match parse_series s, e with
      | Some s', _ => ret s'
      | None, ErrorsIgnore => ret s
      | None, ErrorsRaise => raise (ValueError "Unable to parse string")
      end
  end.

Definition pandas_model : pandas :=
  {| dropna := fun a df =>
       ret (match a with
            | Rows => dropna_rows df
            | Columns => dropna_columns df
            end);
     replace_inf := fun df => ret (replace_infinities df);
     select_dtypes := fun t df => ret (frame_select_dtypes t df);
     getitem := frame_getitem;
     to_numeric := series_to_numeric;
     setitem := frame_setitem |}.

(** [process_data] run against the model: the table it returns. *)
Definition process_data (df : DataFrame) : DataFrame :=
  (process_data_with pandas_model df).1.

(** What the loop does to one column of a frame whose column names are
    [names]. *)
Definition coerced (names : seq string) (c : string * Series)
  : string * Series :=
  if (count_mem c.1 names == 1) && has is_text c.2
  then (c.1, if parse_series c.2 is Some s then s else c.2)
  else c.

(** A cell that a second pass leaves alone: not an infinity, and not a
    string that the parser reads as an infinity or as [NaN]. *)
Definition stable_cell (c : cell) : bool :=
  match c with
  | Text s => if parse s is Some x then if x is Finite _ then true else false
              else true
  | Num PosInf | Num NegInf => false
  | Num _ => true
  end.

Definition stable_cells (df : DataFrame) : bool :=
  all (fun c => all stable_cell c.2) (cols df).

End Parser.

(** ** utils.py *)

Module Utils.

Definition validate_data (df : DataFrame) : bool :=
  if df_empty df then false
  else if size (columns df) < 2 then false
  else true.

Section ProcessData.

Variable pd : pandas.

(** Lines 19-22: [try: df[col] = pd.to_numeric(df[col]) except: pass]. *)
Definition coerce_column (col : string) (df : DataFrame) : result DataFrame :=
  let! x := getitem pd df col in
  let! s := to_numeric pd ErrorsRaise x in
  setitem pd df col s.

(** No handler surrounds the first three calls. *)
Definition process_data_with (df : DataFrame) : result DataFrame :=
  let! df1 := dropna pd Rows df in
  let! df2 := dropna pd Columns df1 in
  let! sel := select_dtypes pd object df2 in
  ret (foldl (fun d col => try_continue (coerce_column col) d) df2
         (columns sel)).

End ProcessData.

(** [process_data] run against the model. *)
Definition process_data (parse : string -> option float) (df : DataFrame)
  : result DataFrame :=
  process_data_with (pandas_model parse) df.

End Utils.

(** ** visualization.py: DataVisualizer.initialize_session_state *)

(** The values the defaults hold. *)
Inductive py_value := PyStr (s : string) | PyInt (n : Z) | PyNone.

Definition py_value_eqb (x y : py_value) : bool :=
  match x, y with
  | PyStr s, PyStr t => s == t
  | PyInt n, PyInt m => Z.eqb n m
  | PyNone, PyNone => true
  | _, _ => false
  end.

Lemma py_value_eqP : Equality.axiom py_value_eqb.
Proof.
case=> [s|n|] [t|m|] /=; try by constructor.
  by apply: (iffP eqP) => [->|[]].
by apply: (iffP (Z.eqb_spec n m)) => [->|[]].
Qed.

HB.instance Definition _ := hasDecEq.Build py_value py_value_eqP.

(** [st.session_state]: a dictionary, its items in insertion order. *)
Definition session_state : Type := seq (string * py_value).

Definition session_keys (ss : session_state) : seq string :=
  [seq kv.1 | kv <- ss].

(** [st.session_state[key] = value]: an existing key keeps its place. *)
Definition session_set (ss : session_state) (key : string) (value : py_value)
  : session_state :=
  if key \in session_keys ss
  then [seq if kv.1 == key then (key, value) else kv | kv <- ss]
  else rcons ss (key, value).

(** [st.session_state.get(key)] *)
Definition session_get (ss : session_state) (key : string) : option py_value :=
  ohead [seq kv.2 | kv <- ss & kv.1 == key].

Definition default_settings : session_state :=
  [:: ("chart_type", PyStr "Sunburst");
      ("color_scheme", PyStr "Default");
      ("width", PyInt 800);
      ("height", PyInt 800);
      ("data", PyNone);
      ("error", PyNone)].

(** Lines 66-68: [for key, value in default_settings.items()]. *)
Definition initialize_session_state (ss : session_state) : session_state :=
  foldl (fun ss kv =>
           if kv.1 \notin session_keys ss then session_set ss kv.1 kv.2 else ss)
    ss default_settings.

(** ** visualization.py: DataVisualizer.run

    The page is the sequence of what [run] writes to it.  The widgets are
    the inputs: each is a function of its [key] and of the options it is
    given, standing for the state the user left it in.  Layout containers
    ([st.sidebar], [st.columns], [st.spinner]) do not change what is
    written and are left out.  pandas is the model above; [pd.read_csv] and
    the two exports are not modelled and may raise.  The streamlit calls
    themselves are taken not to raise, so the outer handler of [run] is
    never entered. *)

(** [df.head()] *)
Definition frame_head (df : DataFrame) : DataFrame :=
  Frame (minn 5 (nrows df)) [seq (c.1, take 5 c.2) | c <- cols df].

(** [len(df)] in an f-string. *)
Definition decimal (n : nat) : string := NilZero.string_of_uint (Nat.to_uint n).

(** The three selections made below the preview. *)
Record selection := Selection {
  path_cols : seq string;
  values_col : string;
  color_col : string
}.

(** Lines 229-234: [{**settings, 'path_columns': ..., ...}]. *)
Definition chart_settings (s : settings) (sel : selection) : settings :=
  Settings (chart_type s) (Some (path_cols sel)) (Some (values_col sel))
    (Some (color_col sel)) (color_scheme s) (width s) (height s).

Section Run.

Variable parse : string -> option float.

Variable figure : Type.
Variable px : chart_kind -> chart_params -> result figure.
Variable update_layout : layout -> figure -> figure.

(** The uploaded file, [pd.read_csv], [fig.write_html] into a buffer and
    [df.to_json(orient='records')]. *)
Variable file : Type.
Variable read_csv : file -> result DataFrame.
Variable write_html : figure -> result string.
Variable to_json : DataFrame -> result string.

(** The widgets [run] reads, by key. *)
Record streamlit := Streamlit {
  selectbox : string -> seq string -> string;
  multiselect : string -> seq string -> seq string;
  slider : string -> Z -> Z -> Z -> Z;
  file_uploader : string -> option file;
  button : string -> bool;
  checkbox : string -> bool
}.

Inductive page_event :=
| StTitle (s : string)
| StMarkdown (s : string)
| StHeader (s : string)
| StSubheader (s : string)
| StWrite (s : string)
| StDataframe (df : DataFrame)
| StPlotlyChart (fig : figure)
| StDownloadButton (label data file_name mime : string)
| Shown (e : ui_event).

(** Lines 139-170: the sidebar. *)
Definition sidebar (st : streamlit) : settings :=
  Settings
    (selectbox st "chart_select" [:: "Sunburst"; "Treemap"; "Icicle"])
    None None None
    (Some (selectbox st "color_select"
             [:: "Default"; "Viridis"; "Plasma"; "Blues"; "Reds"]))
    (slider st "width" 400 1200 800)
    (slider st "height" 400 1200 800).

(** Lines 196-221: the column selectors and the options they offer. *)
Definition select_columns (st : streamlit) (df : DataFrame) : selection :=
  let numeric_cols := columns (frame_select_dtypes float64 df) in
  Selection
    (multiselect st "path" (columns df))
    (selectbox st "values" ("None" :: numeric_cols))
    (selectbox st "color" ("None" :: columns df)).

(** Lines 182-266: the body of the inner [try]; what it wrote, and the
    exception it ended with, if any. *)
Definition upload_page (st : streamlit) (f : file)
  : seq page_event * option exn :=
  match read_csv f with
  | inl e => ([::], Some e)
  | inr df =>
    let: (is_valid, error_msg) := validate_data (Some df) in
    if ~~ is_valid then ([:: Shown (StError error_msg)], None)
    else
    let: (df, shown) := process_data_with (pandas_model parse) df in
    let page :=
      map Shown shown
      ++ [:: StWrite ("### Data Preview (" ++ decimal (nrows df) ++ " rows)");
             StDataframe (frame_head df)] in
    let sel := select_columns st df in
    if button st "generate" then
      if path_cols sel is [::]
      then (rcons page
              (Shown (StError "Please select at least one hierarchy column")),
            None)
      else
      let: (fig, shown) :=
        create_chart px update_layout (checkbox st "show_error") df
          (chart_settings (sidebar st) sel) in
      let page := page ++ map Shown shown in
      if fig is Some fig then
        let page := rcons page (StPlotlyChart fig) in
        match write_html fig with
        | inl e => (page, Some e)
        | inr html =>
          let page :=
            rcons page (StDownloadButton "Download as HTML" html
                          "visualization.html" "text/html") in
          match to_json df with
          | inl e => (page, Some e)
          | inr json_str =>
            (rcons page (StDownloadButton "Download Data as JSON" json_str
                           "data.json" "application/json"),
             None)
          end
        end
      else (page, None)
    else (page, None)
  end.

(** Lines 268-271: the handler of the inner [try]. *)
Definition file_error (st : streamlit) (e : exn) : seq page_event :=
  Shown (StError ("Error processing file: " ++ str e))
  :: (if checkbox st "show_file_error" then [:: Shown (StCode e)] else [::]).

Definition run (st : streamlit) : seq page_event :=
  let page :=
    [:: StTitle "Hierarchical Data Visualizer";
        StMarkdown
          "Upload a CSV file to create interactive hierarchical visualizations";
        StHeader "Chart Settings";
        StSubheader "Dimensions"] in
  if file_uploader st "uploader" is Some f then
    let: (shown, raised) := upload_page st f in
    page ++ shown ++ (if raised is Some e then file_error st e else [::])
  else page.

(** What streamlit promises of the two kinds of selector: a select box
    returns one of its options, a multiselect returns some of them. *)
Definition widget_contract (st : streamlit) : Prop :=
  (forall key o opts, selectbox st key (o :: opts) \in o :: opts) /\
  (forall key opts, all (mem opts) (multiselect st key opts)).

(** The messages [st.error] showed on a page. *)
Definition error_messages (page : seq page_event) : seq string :=
  pmap (fun ev => if ev is Shown (StError m) then Some m else None) page.

End Run.

(** ** Notions the statements use *)

(** [df[col]] when it is a column. *)
Definition column (df : DataFrame) (col : string) : option Series :=
  if frame_getitem df col is inr (ISeries s) then Some s else None.

(** Every cell is missing. *)
Definition all_missing (s : seq cell) : bool := all isna s.

(** The rows of the input that are not all missing, and the table they and
    the columns that are not all missing form. *)
Definition kept_rows (df : DataFrame) : bitseq :=
  [seq ~~ all_missing (row df i) | i <- iota 0 (nrows df)].

Definition drop_all_missing (df : DataFrame) : DataFrame :=
  Frame (count id (kept_rows df))
    [seq (c.1, mask (kept_rows df) c.2) | c <- cols df & ~~ all_missing c.2].

(** Where row [i] of the input stands among the rows that are kept. *)
Definition kept_before (df : DataFrame) (i : nat) : nat :=
  count id (take i (kept_rows df)).

(** No cell is an infinity. *)
Definition no_infinities (df : DataFrame) : bool :=
  all (fun c => all (fun x => ~~ is_inf x) c.2) (cols df).

(** No row and no column is all missing. *)
Definition dense (df : DataFrame) : bool :=
  all id (kept_rows df) && all (fun c => ~~ all_missing c.2) (cols df).

(** A string that the parser reads as an infinity. *)
Definition spells_infinity (parse : string -> option float) (c : cell) : bool :=
  if c is Text s then if parse s is Some x then is_inf (Num x) else false
  else false.

(** A parser for the examples: unsigned decimal integers. *)
Definition digit_value (a : Ascii.ascii) : option nat :=
  let n := Ascii.nat_of_ascii a in
  if (48 <= n) && (n <= 57) then Some (n - 48) else None.

Fixpoint digits_value (acc : nat) (s : string) : option nat :=
  match s with
  | EmptyString => Some acc
  | String a s' =>
      if digit_value a is Some d then digits_value (10 * acc + d) s'
      else None
  end.

Definition parse_decimal (s : string) : option float :=
  if s is EmptyString then None
  else omap (fun n => Finite (inject_Z (Z.of_nat n))) (digits_value 0 s).

(** A stand-in for plotly in the examples: a figure records how it was
    made. *)
Record plot := Plot {
  plot_kind : chart_kind;
  plot_params : chart_params;
  plot_layout : option layout
}.

Definition px_model (k : chart_kind) (p : chart_params) : result plot :=
  ret (Plot k p None).

Definition update_layout_model (l : layout) (f : plot) : plot :=
  Plot (plot_kind f) (plot_params f) (Some l).

(** A pandas whose [dropna] raises, for the examples. *)
Definition raising_pandas : pandas :=
  {| dropna := fun _ _ => raise (Exception "out of memory");
     replace_inf := fun df => ret df;
     select_dtypes := fun _ df => ret df;
     getitem := frame_getitem;
     to_numeric := fun _ _ => raise (Exception "out of memory");
     setitem := frame_setitem |}.

(** Tables and settings of the examples. *)
Definition digits_table : DataFrame :=
  Frame 3 [:: ("a", [:: Text "1"; Text "2"; Text "3"]);
              ("b", [:: Text "1"; Text "2"; Text "x"])].

Definition gaps_table : DataFrame :=
  Frame 3 [:: ("a", [:: Num (Finite 1); Num NaN; Num (Finite 3)]);
              ("b", [:: Num NaN; Num NaN; Num NaN]);
              ("c", [:: Text "x"; Num NaN; Num NaN])].

Definition infinite_row_table : DataFrame :=
  Frame 2 [:: ("a", [:: Num PosInf; Num (Finite 1)]);
              ("b", [:: Num NegInf; Num (Finite 2)])].

Definition sales : DataFrame :=
  Frame 5
    [:: ("Region", [:: Text "EU"; Text "EU"; Text "EU"; Text "NA"; Text "NA"]);
        ("Country", [:: Text "FR"; Text "DE"; Text "ES"; Text "US"; Text "CA"]);
        ("Sales", [:: Num (Finite 10); Num (Finite 20); Num (Finite 30);
                      Num (Finite 40); Num (Finite 50)])].

Definition sunburst_settings : settings :=
  Settings "Sunburst" (Some [:: "Region"; "Country"]) (Some "Sales")
    (Some "None") (Some "Default") 800 800.

(** ** Validation *)

Lemma duplicated_fromE seen s :
  any (duplicated_from seen s) = ~~ uniq s || has (mem seen) s.
Proof.
elim: s seen => [|x s IH] seen //.
have E: has (mem (x :: seen)) s = (x \in s) || has (mem seen) s.
  rewrite -has_pred1 -has_predU; apply: eq_has => y /=.
  by rewrite inE.
rewrite /any /= -/(any _) IH E negb_and negbK.
by case: (x \in seen); case: (x \in s); case: (uniq s); rewrite ?orbT.
Qed.

Lemma any_duplicated s : any (duplicated s) = ~~ uniq s.
Proof. by rewrite /duplicated duplicated_fromE has_pred0 orbF. Qed.

Lemma df_emptyE df :
  df_empty df = ~~ ((0 < nrows df) && (0 < size (columns df))).
Proof. by rewrite /df_empty negb_and -!eqn0Ngt. Qed.

(** C2: [validate_data] reports EmptyInput for a table without rows or
    without columns, else InsufficientColumns for fewer than two columns,
    else DuplicateColumns for a repeated column name, and else accepts; it
    accepts exactly the tables that have a row, at least two columns and
    pairwise distinct column names. *)
Theorem validate_data_correct (df : DataFrame) :
  validate_spec df (validate_data (Some df)) /\
  ((validate_data (Some df)).1 = true <->
   [/\ 0 < nrows df, 2 <= size (columns df) & uniq (columns df)]).
Proof.
rewrite /validate_data df_emptyE any_duplicated.
case: (posnP (nrows df)) => [Hr|Hr] /=.
  split; first by apply: ValidateEmpty; left.
  by split=> // -[].
case: (posnP (size (columns df))) => [Hc|Hc] /=.
  split; first by apply: ValidateEmpty; right.
  by split=> // -[_]; rewrite Hc.
case: (ltnP (size (columns df)) 2) => Hn /=.
  split; first exact: ValidateInsufficient.
  by split=> // -[].
case Hu: (uniq (columns df)) => /=.
  by split; [exact: ValidateOk | split].
split; first by apply: ValidateDuplicate; rewrite ?Hu.
by split=> // -[].
Qed.

(** Fewer than two columns are refused, whatever the number of rows. *)
Theorem validate_data_too_few_columns (df : DataFrame) :
  size (columns df) < 2 -> (validate_data (Some df)).1 = false.
Proof.
by rewrite /validate_data => ->; case: ifP.
Qed.

(** A table with a row and a repeated column name is refused for the
    repetition. *)
Theorem validate_data_duplicate_columns (df : DataFrame) :
  0 < nrows df -> ~~ uniq (columns df) ->
  validate_data (Some df) = invalid DuplicateColumns.
Proof.
rewrite /validate_data df_emptyE any_duplicated => -> Hu; rewrite Hu.
by case: (columns df) Hu => [|x [|y s]].
Qed.

(** ** The cleaning steps against the model *)

Section PandasFacts.

Variable parse : string -> option float.
Local Notation "'pdm'" := (pandas_model parse).

(** *** The coercion loop *)

Lemma frame_eta df : Frame (nrows df) (cols df) = df.
Proof. by case: df. Qed.

Lemma map_if_all (T : Type) (p : pred T) (f : T -> T) (s : seq T) :
  all p s -> [seq if p x then f x else x | x <- s] = map f s.
Proof. by elim: s => [|x s IH] //= /andP [-> /IH ->]. Qed.

Lemma map_if_none (T : Type) (p : pred T) (f : T -> T) (s : seq T) :
  [seq x <- s | p x] = [::] -> [seq if p x then f x else x | x <- s] = s.
Proof.
elim: s => [|x s IH] //=; case: (p x) => // /IH ->.
by [].
Qed.

Lemma map_if_unique (T : Type) (p : pred T) (g : T -> T) (x0 : T) (s : seq T) :
  [seq x <- s | p x] = [:: x0] ->
  [seq if p x then g x else x | x <- s] =
  [seq if p x then g x0 else x | x <- s].
Proof.
elim: s => [|x s IH] //=; case Hp: (p x); last by move/IH->.
by case=> -> Hs; rewrite !map_if_none.
Qed.

Lemma parse_series_numeric s s' :
  parse_series parse s = Some s' -> has is_text s' = false.
Proof.
elim: s s' => [|c s IH] s' /=; first by case=> <-.
case Hc: (parse_cell parse c) => [c'|] //.
case Hs: (parse_series parse s) => [r|] // [<-] /=.
rewrite (IH _ Hs) orbF.
by case: c Hc => [t|x] /=; [case: (parse t) => //= y [<-] | case=> <-].
Qed.

Lemma coerced_name names c : (coerced parse names c).1 = c.1.
Proof. by rewrite /coerced; case: ifP. Qed.

Lemma coerced_idem names c : coerced parse names (coerced parse names c) = coerced parse names c.
Proof.
rewrite {2 3}/coerced; case: ifP => [/andP [Hn Ht]|Hc].
  case Hs: (parse_series parse c.2) => [s|].
    by rewrite /coerced /= (parse_series_numeric Hs) andbF.
  by rewrite /coerced /= Hn Ht Hs.
by rewrite /coerced Hc.
Qed.

Lemma count_columns df col :
  count_mem col (columns df) = size [seq c <- cols df | c.1 == col].
Proof. by rewrite size_filter /columns count_map. Qed.

Lemma coerce_stepE d col :
  try_continue (coerce_column pdm col) d =
  Frame (nrows d)
    [seq if c.1 == col then coerced parse (columns d) c else c | c <- cols d].
Proof.
have Hid: count_mem col (columns d) != 1 ->
    [seq if c.1 == col then coerced parse (columns d) c else c | c <- cols d]
    = cols d.
  move=> Hn; rewrite -[RHS]map_id; apply: eq_map => c.
  by case: eqP => // Hc; rewrite /coerced Hc (negbTE Hn).
rewrite /try_continue /coerce_column /= /frame_getitem.
have := count_columns d col.
case Hf: [seq c <- cols d | c.1 == col] => [|c0 [|c1 cs]] /= Hn;
  try by rewrite Hid ?Hn // frame_eta.
have Hc0: c0.1 == col by have := filter_all (fun c => c.1 == col) (cols d);
  rewrite Hf /= andbT.
have Hin: col \in columns d by rewrite -has_pred1 has_count Hn.
rewrite (map_if_unique _ Hf) {1}/coerced (eqP Hc0) Hn eqxx /=.
rewrite /series_dtype; case Ht: (has is_text c0.2) => /=.
  case: (parse_series parse c0.2) => [s|] /=; rewrite Hin; congr Frame;
    by apply: eq_map => c; case: eqP => // ->.
rewrite -[LHS]frame_eta; congr Frame.
have /= <- := map_if_unique id Hf.
by rewrite -[LHS]map_id; apply: eq_map => c; case: ifP.
Qed.

Lemma coerce_foldE l d :
  foldl (fun d col => try_continue (coerce_column pdm col) d) d l =
  Frame (nrows d)
    [seq if c.1 \in l then coerced parse (columns d) c else c | c <- cols d].
Proof.
elim: l d => [|col l IH] d /=.
  by rewrite -[LHS]frame_eta; congr Frame; rewrite -[LHS]map_id.
rewrite coerce_stepE IH /=.
have ->: columns (Frame (nrows d)
    [seq if c.1 == col then coerced parse (columns d) c else c | c <- cols d])
    = columns d.
  rewrite /columns /= -map_comp; apply: eq_map => c /=.
  by case: ifP => // _; rewrite coerced_name.
rewrite -map_comp; congr Frame; apply: eq_map => c /=.
rewrite inE; case: eqP => [Hc|Hc] /=; last by [].
by rewrite coerced_name coerced_idem; case: ifP.
Qed.

Lemma coerce_columnsE d :
  coerce_columns pdm d =
  Frame (nrows d) [seq coerced parse (columns d) c | c <- cols d].
Proof.
rewrite /coerce_columns coerce_foldE (map_if_all (p := fun c => c.1 \in columns d)) //.
by rewrite -(all_map fst (mem (columns d))); exact: allss.
Qed.

(** Against the model no call raises: [process_data] shows no message. *)
Lemma process_data_withE df :
  process_data_with pdm df =
  (coerce_columns pdm (replace_infinities (dropna_columns (dropna_rows df))),
   [::]).
Proof. by []. Qed.

(** *** Masks *)

Lemma nth_mask_kept (T : Type) (x0 : T) (m : bitseq) (s : seq T) i :
  nth false m i -> nth x0 (mask m s) (count id (take i m)) = nth x0 s i.
Proof.
elim: m s i => [|b m IH] [|x s] [|i] //=; rewrite ?mask0 ?nth_nil //.
- by move=> ->.
- by case: b => /= /IH.
Qed.

Lemma count_take_lt (m : bitseq) i :
  nth false m i -> count id (take i m) < count id m.
Proof.
elim: m i => [|b m IH] [|i] //=; first by move=> ->.
by move=> /IH; rewrite ltn_add2l.
Qed.

Lemma kept_index (m : bitseq) k :
  k < count id m ->
  exists2 i, nth false m i & count id (take i m) = k.
Proof.
elim: m k => [|b m IH] k //=; case: b => /=.
  case: k => [|k] Hk; first by exists 0.
  by case: (IH k Hk) => i Hi <-; exists i.+1.
by rewrite add0n => /IH [i Hi <-]; exists i.+1.
Qed.

Lemma has_mask_kept (T : Type) (a : pred T) (x0 : T) (m : bitseq) (s : seq T) :
  (forall i, i < size s -> a (nth x0 s i) -> nth false m i) ->
  has a (mask m s) = has a s.
Proof.
elim: s m => [|x s IH] m H; first by rewrite mask0.
case: m H => [|b m] H.
  have Hs: has a s = false.
    rewrite -(IH [::]) ?mask0s // => i Hi Ha.
    by have := H i.+1 Hi Ha; rewrite nth_nil.
  rewrite mask0s /= Hs orbF.
  by case Hx: (a x) => //; have := H 0 isT Hx.
have Hs: has a (mask m s) = has a s.
  by apply: IH => i Hi Ha; exact: (H i.+1).
rewrite has_mask_cons /= Hs.
case Hx: (a x); rewrite ?andbF //= andbT.
by have /= -> := H 0 isT Hx.
Qed.

(** *** Dropping rows and columns *)

Lemma row_maskE df : row_mask df = kept_rows df.
Proof.
rewrite /row_mask /kept_rows /mkseq; apply: eq_map => i.
by rewrite /all_missing -has_predC.
Qed.

Lemma size_kept_rows df : size (kept_rows df) = nrows df.
Proof. by rewrite /kept_rows size_map size_iota. Qed.

Lemma nth_kept_rows df i :
  nth false (kept_rows df) i = (i < nrows df) && ~~ all_missing (row df i).
Proof.
case: ltnP => Hi; last by rewrite nth_default // size_kept_rows.
by rewrite /kept_rows (nth_map 0) ?size_iota // nth_iota.
Qed.

Lemma cell_at_default s i : size s <= i -> cell_at s i = Num NaN.
Proof. by move=> Hi; rewrite /cell_at nth_default. Qed.

Lemma notna_cell_lt s i : notna (cell_at s i) -> i < size s.
Proof. by case: ltnP => // /cell_at_default ->. Qed.

Lemma notna_cell_has s i : notna (cell_at s i) -> has notna s.
Proof.
move=> Hi; apply/hasP; exists (cell_at s i) => //.
by apply: mem_nth; exact: notna_cell_lt.
Qed.

Lemma size_column df c : rectangular df -> c \in cols df -> size c.2 = nrows df.
Proof. by move=> /allP H /H /eqP. Qed.

Lemma cell_kept df c i :
  rectangular df -> c \in cols df -> notna (cell_at c.2 i) ->
  nth false (kept_rows df) i.
Proof.
move=> Hr Hc Hi; rewrite nth_kept_rows -(size_column Hr Hc) (notna_cell_lt Hi) /=.
rewrite /all_missing -has_predC; apply/hasP; exists (cell_at c.2 i) => //.
by apply/mapP; exists c.
Qed.

Lemma has_notna_mask df c :
  rectangular df -> c \in cols df ->
  has notna (mask (kept_rows df) c.2) = has notna c.2.
Proof.
move=> Hr Hc; apply: (has_mask_kept (x0 := Num NaN)) => i _.
exact: cell_kept.
Qed.

Lemma dropna_dropna df :
  rectangular df -> dropna_columns (dropna_rows df) = drop_all_missing df.
Proof.
move=> Hr; rewrite /dropna_columns /dropna_rows /drop_all_missing row_maskE /=.
congr Frame; rewrite filter_map; congr (map _ _).
apply: eq_in_filter => c Hc /=.
by rewrite has_notna_mask // /all_missing -has_predC.
Qed.

Lemma rectangular_drop df : rectangular df -> rectangular (drop_all_missing df).
Proof.
move=> Hr; apply/allP => c /mapP [c0]; rewrite mem_filter => /andP [_ Hc0] -> /=.
by rewrite size_mask // size_kept_rows (size_column Hr Hc0).
Qed.

(** *** The steps after dropping keep the shape *)

Lemma size_parse_series s s' : parse_series parse s = Some s' -> size s' = size s.
Proof.
elim: s s' => [|c s IH] s' /=; first by case=> <-.
case: (parse_cell parse c) => [c'|] //.
by case Hs: (parse_series parse s) => [r|] // [<-] /=; rewrite (IH _ Hs).
Qed.

Lemma size_coerced names c : size (coerced parse names c).2 = size c.2.
Proof.
rewrite /coerced; case: ifP => // _ /=.
by case Hs: (parse_series parse c.2) => [s|] //; rewrite (size_parse_series Hs).
Qed.

Lemma columns_coerce df : columns (coerce_columns pdm df) = columns df.
Proof.
rewrite coerce_columnsE /columns /= -map_comp; apply: eq_map => c /=.
exact: coerced_name.
Qed.

Lemma nrows_coerce df : nrows (coerce_columns pdm df) = nrows df.
Proof. by rewrite coerce_columnsE. Qed.

Lemma columns_replace df : columns (replace_infinities df) = columns df.
Proof. by rewrite /columns /= -map_comp. Qed.

Lemma rectangular_coerce df :
  rectangular df -> rectangular (coerce_columns pdm df).
Proof.
move=> Hr; rewrite coerce_columnsE; apply/allP => c /mapP [c0 Hc0 ->] /=.
by rewrite size_coerced (size_column Hr Hc0).
Qed.

Lemma rectangular_replace df :
  rectangular df -> rectangular (replace_infinities df).
Proof.
move=> Hr; apply/allP => c /mapP [c0 Hc0 ->] /=.
by rewrite size_map (size_column Hr Hc0).
Qed.

Lemma process_dataE df :
  rectangular df ->
  process_data parse df =
  coerce_columns pdm (replace_infinities (drop_all_missing df)).
Proof. by move=> Hr; rewrite /process_data process_data_withE /= dropna_dropna. Qed.

(** The shape of the result, for tables with equal-length columns. *)
Lemma process_data_shape df :
  rectangular df ->
  [/\ process_data parse df =
        coerce_columns (pandas_model parse) (replace_infinities (drop_all_missing df)),
      nrows (process_data parse df) = count id (kept_rows df),
      columns (process_data parse df) =
        [seq c.1 | c <- cols df & ~~ all_missing c.2] &
      rectangular (process_data parse df)].
Proof.
move=> Hr; rewrite process_dataE //; split=> //.
- by rewrite nrows_coerce.
- by rewrite columns_coerce columns_replace /columns /= -map_comp.
- by apply: rectangular_coerce; apply: rectangular_replace; apply: rectangular_drop.
Qed.

(** C5: for a table with equal-length columns, [process_data] removes
    exactly the rows whose cells are all missing and exactly the columns
    whose cells are all missing, both judged on the input: its result is the
    input restricted to the other rows and columns ([drop_all_missing]) and
    then passed through the two later steps, which change cells and remove
    nothing. *)
Theorem process_data_drops_all_missing df :
  rectangular df ->
  [/\ process_data parse df =
        coerce_columns (pandas_model parse) (replace_infinities (drop_all_missing df)),
      nrows (process_data parse df) = count id (kept_rows df),
      columns (process_data parse df) =
        [seq c.1 | c <- cols df & ~~ all_missing c.2] &
      rectangular (process_data parse df)].
Proof. exact: process_data_shape. Qed.

(** *** Cells through the later steps *)

Lemma cell_at_replace s k : cell_at (map inf_to_na s) k = inf_to_na (cell_at s k).
Proof.
case: (ltnP k (size s)) => Hk; first exact: nth_map.
by rewrite !cell_at_default ?size_map.
Qed.

Lemma cell_at_parse_num s s' k x :
  parse_series parse s = Some s' -> cell_at s k = Num x -> cell_at s' k = Num x.
Proof.
elim: s s' k => [|c s IH] s' k /=; first by case=> <-.
case Hc: (parse_cell parse c) => [c'|] //.
case Hs: (parse_series parse s) => [r|] // [<-].
case: k => [|k] /=; last exact: IH.
by rewrite /cell_at /= => Hx; move: Hc; rewrite Hx /=; case.
Qed.

Lemma cell_at_coerced_num names c k x :
  cell_at c.2 k = Num x -> cell_at (coerced parse names c).2 k = Num x.
Proof.
rewrite /coerced; case: ifP => // _ /=.
by case Hs: (parse_series parse c.2) => [s|] //; exact: cell_at_parse_num.
Qed.

Lemma inf_notna c : is_inf c -> notna c.
Proof. by case: c => [s|[]]. Qed.

Lemma inf_to_na_inf c : is_inf c -> inf_to_na c = Num NaN.
Proof. by rewrite /inf_to_na => ->. Qed.

(** C10: in a table with equal-length columns and at least one column, a
    row whose cells are all infinite is not removed by one [process_data]:
    no column is dropped, the row is still there, at its place among the
    rows that are kept, and every cell of it is now the missing marker. *)
Theorem infinite_row_survives df i :
  rectangular df -> 0 < size (cols df) -> i < nrows df ->
  all is_inf (row df i) ->
  [/\ columns (process_data parse df) = columns df,
      kept_before df i < nrows (process_data parse df) &
      all_missing (row (process_data parse df) (kept_before df i))].
Proof.
move=> Hr Hc Hi Hinf.
have Hcell c : c \in cols df -> is_inf (cell_at c.2 i).
  by move=> Hin; apply: (allP Hinf); apply/mapP; exists c.
have Hkept : nth false (kept_rows df) i.
  case Hcs: (cols df) Hc => [|c cs] // _.
  have Hin : c \in cols df by rewrite Hcs inE eqxx.
  by apply: (cell_kept Hr Hin); apply: inf_notna; exact: Hcell.
have Hall : all (fun c => ~~ all_missing c.2) (cols df).
  apply/allP => c Hin; rewrite /all_missing -has_predC.
  by apply: (@notna_cell_has _ i); apply: inf_notna; exact: Hcell.
have [-> -> -> _] := process_data_shape Hr.
rewrite /drop_all_missing (all_filterP Hall); split=> //.
  exact: count_take_lt.
rewrite coerce_columnsE /row /= /all_missing -!map_comp all_map.
apply/allP => c Hin /=.
rewrite (@cell_at_coerced_num _ _ _ NaN) //= cell_at_replace.
by rewrite /cell_at nth_mask_kept // inf_to_na_inf //; exact: Hcell.
Qed.

(** *** One column through the steps *)

Lemma columnP df n s :
  column df n = Some s ->
  exists2 c, [seq c <- cols df | c.1 == n] = [:: c] & c.2 = s.
Proof.
rewrite /column /frame_getitem.
by case: [seq _ <- _ | _] => [|c [|c' cs]] //= [<-]; exists c.
Qed.

Lemma column_unique df n c :
  [seq c <- cols df | c.1 == n] = [:: c] -> column df n = Some c.2.
Proof. by rewrite /column /frame_getitem => ->. Qed.

Lemma unique_mem (cs : seq (string * Series)) n c :
  [seq c <- cs | c.1 == n] = [:: c] -> (c \in cs) && (c.1 == n).
Proof.
move=> H; rewrite andbC -(mem_filter (fun c : string * Series => c.1 == n)).
by rewrite H inE eqxx.
Qed.

Lemma unique_map (g : string * Series -> string * Series) cs n c :
  (forall c, (g c).1 = c.1) ->
  [seq c <- cs | c.1 == n] = [:: c] ->
  [seq c <- map g cs | c.1 == n] = [:: g c].
Proof.
move=> Hg Hc; rewrite filter_map -[RHS]/(map g [:: c]) -Hc; congr (map _ _).
by apply: eq_filter => x /=; rewrite Hg.
Qed.

Lemma unique_filter (p : pred (string * Series)) cs n c :
  p c -> [seq c <- cs | c.1 == n] = [:: c] ->
  [seq c <- filter p cs | c.1 == n] = [:: c].
Proof.
move=> Hp Hc; rewrite -filter_predI.
have E : predI (fun c : string * Series => c.1 == n) p
         =1 predI p (fun c => c.1 == n) by move=> x /=; rewrite andbC.
by rewrite (eq_filter E) filter_predI Hc /= Hp.
Qed.

Lemma mask_all_kept (T : Type) (m : bitseq) (s : seq T) :
  (forall i, i < size s -> nth false m i) -> mask m s = s.
Proof.
elim: s m => [|x s IH] m H; first by rewrite mask0.
case: m H => [|b m] H; first by have := H 0 isT.
have /= -> := H 0 isT; rewrite /= IH // => i Hi.
exact: (H i.+1).
Qed.

Lemma mask_notna_column df c :
  rectangular df -> c \in cols df -> all notna c.2 ->
  mask (kept_rows df) c.2 = c.2.
Proof.
move=> Hr Hc Hn; apply: mask_all_kept => i Hi.
by apply: (cell_kept Hr Hc); apply: (allP Hn); exact: mem_nth.
Qed.

Lemma parse_series_text ss :
  parse_series parse [seq Text s | s <- ss] =
  if all (fun s => isSome (parse s)) ss
  then Some [seq Num x | x <- pmap parse ss] else None.
Proof.
elim: ss => [|s ss IH] //=; rewrite IH.
by case: (parse s) => [x|] //=; case: ifP.
Qed.

Lemma text_column_dropped df n ss :
  rectangular df -> 0 < nrows df ->
  column df n = Some [seq Text s | s <- ss] ->
  0 < size ss /\
  [seq c <- cols (drop_all_missing df) | c.1 == n]
  = [:: (n, [seq Text s | s <- ss])].
Proof.
move=> Hr Hn /columnP [[n' s] Hc /= Hs]; rewrite {s}Hs in Hc.
have /andP [Hin /= /eqP Hn'] := unique_mem Hc; rewrite {n'}Hn' in Hc Hin.
have Hss : 0 < size ss by rewrite -(size_map Text) (size_column Hr Hin).
split=> //.
have Htext : all notna [seq Text s | s <- ss] by rewrite all_map; apply/allP.
have Hna : ~~ all_missing [seq Text s | s <- ss].
  by rewrite /all_missing all_map; case: (ss) Hss.
have /= Hm := mask_notna_column Hr Hin Htext; rewrite -[in RHS]Hm.
apply: (@unique_map (fun c => (c.1, mask (kept_rows df) c.2)) _ _
          (n, [seq Text s | s <- ss])) => //.
exact: unique_filter.
Qed.

Lemma text_column_coerced d n ss :
  [seq c <- cols d | c.1 == n] = [:: (n, [seq Text s | s <- ss])] ->
  column (coerce_columns pdm d) n =
  Some (if all (fun s => isSome (parse s)) ss
        then [seq Num x | x <- pmap parse ss]
        else [seq Text s | s <- ss]).
Proof.
move=> Hd.
have Hone : count_mem n (columns d) == 1.
  by rewrite count_columns Hd.
have H4 : [seq c <- cols (coerce_columns pdm d) | c.1 == n] =
          [:: coerced parse (columns d) (n, [seq Text s | s <- ss])].
  by rewrite coerce_columnsE; apply: unique_map => // c; exact: coerced_name.
rewrite (column_unique H4) /coerced /= Hone has_map /= parse_series_text.
by case: (ss) => //= s0 ss0; case: ifP.
Qed.

(** C1: numeric coercion is all-or-nothing per column.  Let the column
    named [n] (the only one of that name) hold the strings [ss] and nothing
    else.  After the coercion loop the column [n] holds the parsed numbers
    when every string of [ss] parses, and is the unchanged column of strings
    when one of them does not; and the same is true after the whole of
    [process_data] when the table has equal-length columns and a row. *)
Theorem coercion_all_or_nothing df n ss :
  column df n = Some [seq Text s | s <- ss] ->
  let outcome :=
    if all (fun s => isSome (parse s)) ss
    then [seq Num x | x <- pmap parse ss]
    else [seq Text s | s <- ss] in
  column (coerce_columns (pandas_model parse) df) n = Some outcome /\
  (rectangular df -> 0 < nrows df ->
   column (process_data parse df) n = Some outcome).
Proof.
move=> Hc /=; split.
  have [[n' s] Hf /= Hs] := columnP Hc; rewrite {s}Hs in Hf.
  have /andP [_ /= /eqP Hn'] := unique_mem Hf; rewrite {n'}Hn' in Hf.
  exact: text_column_coerced.
move=> Hr Hn; have [Hss H2] := text_column_dropped Hr Hn Hc.
rewrite process_dataE //; apply: text_column_coerced => //.
have -> : [seq Text s | s <- ss] = map inf_to_na [seq Text s | s <- ss].
  by rewrite -map_comp.
exact: (@unique_map (fun c => (c.1, map inf_to_na c.2)) _ _
          (n, [seq Text s | s <- ss])).
Qed.

End PandasFacts.

(** ** Applying process_data twice *)

Section Idempotence.

Variable parse : string -> option float.
Local Notation "'pdm'" := (pandas_model parse).

Lemma coerce_coerce df :
  coerce_columns pdm (coerce_columns pdm df) = coerce_columns pdm df.
Proof.
rewrite [in LHS]coerce_columnsE columns_coerce nrows_coerce.
rewrite !coerce_columnsE /= -map_comp; congr Frame.
by apply: eq_map => c /=; exact: coerced_idem.
Qed.

Lemma stable_not_inf c : stable_cell parse c -> is_inf c = false.
Proof. by case: c => [s|[]]. Qed.

Lemma replace_no_infinities df :
  no_infinities df -> replace_infinities df = df.
Proof.
move=> Hs; rewrite -[RHS]frame_eta /replace_infinities; congr Frame.
rewrite -[RHS]map_id; apply/eq_in_map => -[n s] Hc /=; congr pair.
rewrite -[RHS]map_id; apply/eq_in_map => c Hin.
by rewrite /inf_to_na (negbTE (allP (allP Hs _ Hc) _ Hin)).
Qed.

Lemma stable_no_infinities df : stable_cells parse df -> no_infinities df.
Proof.
move=> Hs; apply/allP => c Hc; apply/allP => x Hx.
by rewrite (stable_not_inf (allP (allP Hs _ Hc) _ Hx)).
Qed.

Lemma replace_stable df :
  stable_cells parse df -> replace_infinities df = df.
Proof. by move=> /stable_no_infinities /replace_no_infinities. Qed.

Lemma drop_dense df :
  rectangular df -> dense df -> drop_all_missing df = df.
Proof.
move=> Hr /andP [Hrows Hcols].
have Hm c : c \in cols df -> mask (kept_rows df) c.2 = c.2.
  move=> Hc; apply: mask_all_kept => i Hi; apply: (all_nthP _ Hrows).
  by rewrite size_kept_rows -(size_column Hr Hc).
rewrite -[RHS]frame_eta /drop_all_missing (all_filterP Hcols); congr Frame.
  by move: Hrows; rewrite all_count size_kept_rows => /eqP.
by rewrite -[RHS]map_id; apply/eq_in_map => -[n s] Hc; rewrite (Hm _ Hc).
Qed.

Lemma dense_rowsP df :
  reflect (forall k, k < nrows df -> ~~ all_missing (row df k))
          (all id (kept_rows df)).
Proof.
apply: (iffP (all_nthP false)) => H k Hk.
  by have := H k; rewrite size_kept_rows nth_kept_rows Hk /=; exact.
by rewrite nth_kept_rows; rewrite size_kept_rows in Hk; rewrite Hk /= H.
Qed.

Lemma dense_drop df : rectangular df -> dense (drop_all_missing df).
Proof.
move=> Hr; apply/andP; split; last first.
  apply/allP => c /mapP [c0]; rewrite mem_filter => /andP [Hp Hc0] -> /=.
  by rewrite /all_missing -has_predC has_notna_mask // has_predC.
apply/dense_rowsP => k /= /kept_index [i Hi <-].
move: (Hi); rewrite nth_kept_rows => /andP [_].
rewrite /all_missing -!has_predC => /hasP [x /mapP [c Hc ->] Hx].
apply/hasP; exists (cell_at c.2 i) => //.
apply/mapP; exists (c.1, mask (kept_rows df) c.2) => /=.
  apply/mapP; exists c => //; rewrite mem_filter Hc andbT.
  by rewrite /all_missing -has_predC; exact: notna_cell_has Hx.
by rewrite /cell_at nth_mask_kept.
Qed.

Lemma stable_drop df :
  stable_cells parse df -> stable_cells parse (drop_all_missing df).
Proof.
move=> Hs; apply/allP => c /mapP [c0]; rewrite mem_filter => /andP [_ Hc0] -> /=.
exact/all_mask/(allP Hs).
Qed.

Lemma parse_series_stable s s' k :
  parse_series parse s = Some s' -> all (stable_cell parse) s ->
  all (stable_cell parse) s' /\
  (notna (cell_at s k) -> notna (cell_at s' k)).
Proof.
elim: s s' k => [|c s IH] s' k /=; first by case=> <-.
case Hc: (parse_cell parse c) => [c'|] //.
case Hs: (parse_series parse s) => [r|] // [<-] /andP [Hst Hall].
have [Hr Hk] := IH r k.-1 Hs Hall.
have Hc' : stable_cell parse c' /\ (notna c -> notna c').
  case: c Hc Hst => [t|x] /=; last by case=> <-.
  by case: (parse t) => [[q|||]|] //= [<-].
split; first by rewrite /= Hr; case: Hc' => ->.
by case: k Hk => [|k] //= _; case: Hc'.
Qed.

Lemma stable_coerced names c k :
  all (stable_cell parse) c.2 ->
  all (stable_cell parse) (coerced parse names c).2 /\
  (notna (cell_at c.2 k) -> notna (cell_at (coerced parse names c).2 k)).
Proof.
rewrite /coerced; case: ifP => // _ /=.
by case Hs: (parse_series parse c.2) => [s|] // Hst; exact: parse_series_stable.
Qed.

Lemma stable_coerce df :
  stable_cells parse df -> stable_cells parse (coerce_columns pdm df).
Proof.
move=> Hs; rewrite coerce_columnsE; apply/allP => c /mapP [c0 Hc0 ->].
by have [] := stable_coerced (columns df) 0 (allP Hs _ Hc0).
Qed.

Lemma dense_coerce df :
  stable_cells parse df -> dense df -> dense (coerce_columns pdm df).
Proof.
move=> Hs /andP [/dense_rowsP Hrows /allP Hcols].
rewrite coerce_columnsE; apply/andP; split.
  apply/dense_rowsP => k /= /Hrows.
  rewrite /all_missing -!has_predC => /hasP [x /mapP [c Hc ->] Hx].
  apply/hasP; exists (cell_at (coerced parse (columns df) c).2 k).
    by apply/mapP; exists (coerced parse (columns df) c) => //; exact: map_f.
  by have [_] := stable_coerced (columns df) k (allP Hs _ Hc); exact.
apply/allP => c /mapP [c0 Hc0 ->].
have := Hcols _ Hc0; rewrite /all_missing -!has_predC => /hasP [x Hx Hn].
have Hk : notna (cell_at c0.2 (index x c0.2)) by rewrite /cell_at nth_index.
apply: (notna_cell_has (i := index x c0.2)).
by have [_] := stable_coerced (columns df) (index x c0.2) (allP Hs _ Hc0); exact.
Qed.

Lemma process_data_idempotent_on_stable df :
  rectangular df -> stable_cells parse df ->
  process_data parse (process_data parse df) = process_data parse df.
Proof.
move=> Hr Hs.
have [E _ _ Hr4] := process_data_shape parse Hr.
have Hs2 := stable_drop Hs.
rewrite (replace_stable Hs2) in E.
have Hs4 : stable_cells parse (process_data parse df).
  by rewrite E; exact: stable_coerce.
have Hd4 : dense (process_data parse df).
  by rewrite E; apply: dense_coerce => //; exact: dense_drop.
rewrite [LHS]process_dataE // drop_dense // replace_stable //.
by rewrite E coerce_coerce.
Qed.

Lemma map_fixed (T : eqType) (g : T -> T) (s : seq T) :
  map g s = s -> {in s, forall x, g x = x}.
Proof.
elim: s => [|y s IH] //= [Hy Hs] x; rewrite inE => /orP [/eqP ->|] //.
exact: IH.
Qed.

Lemma dense_of_shape df :
  count id (kept_rows df) = nrows df ->
  size [seq c <- cols df | ~~ all_missing c.2] = size (cols df) ->
  dense df.
Proof.
move=> Hrows Hcols; apply/andP; split.
  by rewrite all_count size_kept_rows Hrows.
by rewrite all_count -size_filter Hcols.
Qed.

Lemma replaced_then_coerced_no_inf names (c : string * Series) :
  coerced parse names (c.1, map inf_to_na c.2) = c -> all (fun x => ~~ is_inf x) c.2.
Proof.
move=> E; apply/allP => x Hx; apply/negP => Hinf.
have Hk : cell_at c.2 (index x c.2) = x by rewrite /cell_at nth_index.
have : cell_at (coerced parse names (c.1, map inf_to_na c.2)).2 (index x c.2)
       = Num NaN.
  by apply: cell_at_coerced_num; rewrite /= cell_at_replace Hk inf_to_na_inf.
by rewrite E Hk => Hx'; rewrite Hx' in Hinf.
Qed.

(** C4, amended: applying [process_data] twice.  For a table with
    equal-length columns the second application changes nothing exactly
    when the first result has no all-missing row, no all-missing column and
    no infinite cell; and this is so whenever the table has no infinite cell
    and no string that parses to an infinity or to NaN. *)
Theorem process_data_idempotence df :
  rectangular df ->
  (process_data parse (process_data parse df) = process_data parse df <->
   dense (process_data parse df) && no_infinities (process_data parse df)) /\
  (stable_cells parse df ->
   process_data parse (process_data parse df) = process_data parse df).
Proof.
move=> Hr; split; last exact: process_data_idempotent_on_stable.
have [E _ _ Hr4] := process_data_shape parse Hr.
have [E' Hrows Hcols _] := process_data_shape parse Hr4.
set P := process_data parse df in E E' Hrows Hcols Hr4 *.
split=> [H|/andP [Hd Hi]]; last first.
  by rewrite E' drop_dense // replace_no_infinities // E coerce_coerce.
have Hd : dense P.
  apply: dense_of_shape; first by rewrite -Hrows H.
  by move: Hcols; rewrite H /columns => /(congr1 size); rewrite !size_map.
rewrite Hd /=; move: H; rewrite E' drop_dense // coerce_columnsE.
move/(congr1 cols); rewrite /= -map_comp => /map_fixed H.
apply/allP => c Hc.
apply: (@replaced_then_coerced_no_inf (columns (replace_infinities P))).
exact: (H c Hc).
Qed.

End Idempotence.

(** ** Chart configuration *)

Local Arguments String.append : simpl never.
Local Arguments String.concat : simpl never.
Local Arguments absent : simpl never.

Lemma chart_types_known name :
  (name \in [:: "Sunburst"; "Treemap"; "Icicle"]) = isSome (chart_types name).
Proof. by rewrite /chart_types !inE; do 3![case: eqP => //= _]. Qed.

Lemma missing_nil (cs p : seq string) :
  ([seq col <- p | col \notin cs] != [::]) = ~~ all (fun col => col \in cs) p.
Proof. by rewrite -has_filter -has_predC. Qed.

Lemma selected_absent sentinel o : selected sentinel o = ~~ absent sentinel o.
Proof.
by case: o => [v|] //=; rewrite /selected /= negb_or.
Qed.

Lemma chart_callE df s :
  chart_call df s =
  if check_hierarchy df s is Some e then inl e
  else if check_kind df s is Some e then inl e
  else if check_path df s is Some e then inl e
  else if check_values df s is Some e then inl e
  else if check_color df s is Some e then inl e
  else inr (odflt Sunburst (chart_types (chart_type s)), assembled df s).
Proof.
have -> : check_hierarchy df s =
    if truthy_list (path_columns s) then None else Some MissingHierarchy.
  by rewrite /check_hierarchy; case: (path_columns s) => [[|? ?]|].
rewrite /chart_call /check_kind /check_path /check_values /check_color
        /assembled chart_types_known missing_nil !selected_absent.
rewrite /MissingHierarchy /UnknownChartKind /PathColumnsNotFound
        /ValuesColumnNotFound /ColorColumnNotFound.
case: (truthy_list _) => //=; set p := odflt [::] (path_columns s).
case: (chart_types (chart_type s)) => [k|] //=.
case: (all _ p) => //=.
case: (absent "Default" (color_scheme s));
  case: (values_column s) => [v|]; case: (color_column s) => [c|] //;
  try case: (absent "None" (Some v)); try case: (absent "None" (Some c)) => //=;
  try case: (v \in columns df) => //=; try case: (c \in columns df) => //=.
Qed.

Section ChartFacts.

Variable figure : Type.
Variable px : chart_kind -> chart_params -> result figure.
Variable update_layout : layout -> figure -> figure.

Lemma create_chart_error show df s e :
  chart_call df s = inl e ->
  create_chart px update_layout show df s = (None, report show e).
Proof. by rewrite /create_chart /create_chart_body => ->. Qed.

(** C3: the checks run in the order hierarchy, chart kind, path columns,
    values column, color column, and the first that fails decides the
    error: [chart_call] ends with the error of the first failing check of
    [checks]; when there is one, [create_chart] returns no figure and
    reports that error, and when there is none the checks let the call
    through. *)
Theorem create_chart_first_failure show df s :
  error_of (chart_call df s) = first_failure df s /\
  match first_failure df s with
  | Some e => create_chart px update_layout show df s = (None, report show e)
  | None => exists call, chart_call df s = inr call
  end.
Proof.
have H : error_of (chart_call df s) = first_failure df s.
  rewrite chart_callE /first_failure /checks /=.
  case: (check_hierarchy df s) => [e|] //=.
  case: (check_kind df s) => [e|] //=.
  case: (check_path df s) => [e|] //=.
  case: (check_values df s) => [e|] //=.
  by case: (check_color df s) => [e|].
split=> //; rewrite -H.
case E: (chart_call df s) => [e|call] /=; first exact: create_chart_error.
by exists call.
Qed.

(** C7: with an empty [path_columns], [create_chart] returns no figure and
    reports MissingHierarchy, whatever the table and the other six settings
    are. *)
Theorem create_chart_missing_hierarchy show df kind vcol ccol scheme w h :
  create_chart px update_layout show df
    (Settings kind (Some [::]) vcol ccol scheme w h)
  = (None, report show MissingHierarchy).
Proof. exact: create_chart_error. Qed.

(** C8: when the chart kind is one of the three known ones and some name of
    [path_columns] is not a column of the table, [create_chart] returns no
    figure and reports ColumnNotFound with all the missing names, in their
    order, joined by a comma and a space. *)
Theorem create_chart_missing_path_columns show df s p :
  chart_type s \in [:: "Sunburst"; "Treemap"; "Icicle"] ->
  path_columns s = Some p ->
  has (fun col => col \notin columns df) p ->
  create_chart px update_layout show df s =
  (None, report show (PathColumnsNotFound [seq col <- p | col \notin columns df])).
Proof.
move=> Hk Hp; rewrite has_predC => /negbTE Hall; apply: create_chart_error.
rewrite chart_callE /check_hierarchy /check_kind /check_path Hk Hp /= Hall.
by case: p Hp Hall.
Qed.

(** The first scenario of the specification: region and country as the
    hierarchy, sales as the sizes, no coloring.  The checks pass and plotly
    is called for a sunburst with exactly these parameters. *)
Theorem scenario_sunburst show :
  create_chart px update_layout show sales sunburst_settings =
  match px Sunburst (ChartParams sales [:: "Region"; "Country"] 800 800
                       (Some "Sales") None None) with
  | inr fig => (Some (update_layout chart_layout fig), [::])
  | inl e => (None, report show e)
  end.
Proof.
rewrite /create_chart /create_chart_body.
have -> : chart_call sales sunburst_settings =
          inr (Sunburst, ChartParams sales [:: "Region"; "Country"] 800 800
                           (Some "Sales") None None) by vm_compute.
by rewrite /=; case: (px _ _).
Qed.

(** The second scenario: a values column that the table does not have. *)
Theorem scenario_nonexistent show :
  create_chart px update_layout show sales
    (with_values_column (Some "Nonexistent") sunburst_settings)
  = (None, report show (ValuesColumnNotFound "Nonexistent")).
Proof. by apply: create_chart_error; vm_compute. Qed.

End ChartFacts.

(** C9, amended: a values or color column that is unset, empty or the
    string "None" is treated as unset (the call is the call without it, so
    its existence is never checked); on success the values and color fields
    are the columns that are not absent in this sense, and
    [color_continuous_scale] is the color scheme unless that is unset, empty
    or "Default"; and the color scheme never changes whether or how the
    call fails. *)
Theorem sentinel_handling df s :
  [/\ absent "None" (values_column s) ->
        chart_call df s = chart_call df (with_values_column None s),
      absent "None" (color_column s) ->
        chart_call df s = chart_call df (with_color_column None s),
      forall k p, chart_call df s = inr (k, p) ->
        [/\ values p =
              if absent "None" (values_column s) then None else values_column s,
            color p =
              if absent "None" (color_column s) then None else color_column s &
            color_continuous_scale p =
              if absent "Default" (color_scheme s) then None else color_scheme s] &
      forall scheme,
        error_of (chart_call df (with_color_scheme scheme s)) =
        error_of (chart_call df s)].
Proof.
split.
- move=> Ha; rewrite !chart_callE /check_values /assembled /=.
  by case: (values_column s) Ha => [v|] //= ->.
- move=> Ha; rewrite !chart_callE /check_color /assembled /=.
  by case: (color_column s) Ha => [c|] //= ->.
- move=> k p; rewrite chart_callE.
  do 5![case: (_ df s) => [e|] //].
  by case=> _ <-.
- move=> scheme; rewrite !chart_callE.
  rewrite /check_hierarchy /check_kind /check_path /check_values /check_color /=.
  by do 5![case: (X in if X is Some _ then _ else _) => [e|] //].
Qed.

(** ** The boundary of process_data *)

Section Boundary.

Variable pd : pandas.

Lemma try_continue_absorbs body df e :
  body df = inl e -> try_continue body df = df.
Proof. by rewrite /try_continue => ->. Qed.


(** utils.py has no handler around its first calls: an exception of
    [dropna] reaches the caller. *)
Theorem utils_process_data_propagates df e :
  dropna pd Rows df = inl e -> Utils.process_data_with pd df = inl e.
Proof. by rewrite /Utils.process_data_with => ->. Qed.

End Boundary.


(** ** utils.py against visualization.py *)

Section UtilsFacts.

Variable parse : string -> option float.
Local Notation "'pdm'" := (pandas_model parse).

Lemma parse_series_no_text s :
  has is_text s = false -> parse_series parse s = Some s.
Proof.
elim: s => [|c s IH] //=; case: c => [t|x] //= /IH ->.
by [].
Qed.

Lemma setitem_same d col c0 :
  [seq c <- cols d | c.1 == col] = [:: c0] ->
  frame_setitem d col c0.2 = inr d.
Proof.
move=> Hf; rewrite /frame_setitem.
have -> : col \in columns d by rewrite -has_pred1 has_count count_columns Hf.
have /andP [_ /eqP Hc0] := unique_mem Hf.
rewrite /ret -[in RHS](frame_eta d); congr (inr (Frame _ _)).
have E : (fun c : string * Series => if c.1 == col then (c.1, c0.2) else c)
         =1 (fun c => if c.1 == col then (c0.1, c0.2) else c).
  by move=> c; case: eqP => // ->; rewrite Hc0.
rewrite (eq_map E).
have /= <- := map_if_unique (fun c => (c.1, c.2)) Hf.
by rewrite -[RHS]map_id; apply: eq_map => -[n s] /=; case: ifP.
Qed.

Lemma utils_coerce_column d col :
  try_continue (Utils.coerce_column pdm col) d =
  try_continue (coerce_column pdm col) d.
Proof.
rewrite /try_continue /Utils.coerce_column /coerce_column /= /frame_getitem.
case Hf: [seq c <- cols d | c.1 == col] => [|c0 [|c1 cs]] //=.
have := setitem_same Hf; rewrite /frame_setitem /ret; case=> E.
rewrite /series_dtype; case Ht: (has is_text c0.2) => /=.
  by case: (parse_series parse c0.2) => [s|] //=; rewrite E.
by rewrite parse_series_no_text //= E.
Qed.

Lemma eq_foldl (T R : Type) (f g : R -> T -> R) (z : R) (s : seq T) :
  f =2 g -> foldl f z s = foldl g z s.
Proof. by move=> E; elim: s z => [|x s IH] z //=; rewrite E IH. Qed.

Lemma utils_process_dataE df :
  Utils.process_data parse df =
  inr (coerce_columns pdm (dropna_columns (dropna_rows df))).
Proof.
rewrite /Utils.process_data /Utils.process_data_with /=.
set d := dropna_columns (dropna_rows df); congr inr.
have E : (fun d col => try_continue (Utils.coerce_column pdm col) d)
         =2 (fun d col => try_continue (coerce_column pdm col) d).
  by move=> d' col; exact: utils_coerce_column.
rewrite (eq_foldl _ _ E) coerce_foldE coerce_columnsE; congr Frame.
apply/eq_in_map => c Hc; case: ifP => // /negbT Hl.
rewrite /coerced; case Ht: (has is_text c.2); rewrite ?andbF //.
case/negP: Hl; apply/mapP; exists c => //.
by rewrite mem_filter Hc /series_dtype Ht.
Qed.

Lemma no_infinities_dropna df :
  no_infinities df -> no_infinities (dropna_columns (dropna_rows df)).
Proof.
move=> Hs; apply/allP => c; rewrite mem_filter => /andP [_ /mapP [c0 Hc0 ->]] /=.
exact/all_mask/(allP Hs).
Qed.

(** On a table without infinite cells the two [process_data] return the
    same table. *)
Theorem utils_process_data_agrees df :
  no_infinities df ->
  Utils.process_data parse df = inr (process_data parse df).
Proof.
move=> Hi; rewrite utils_process_dataE /process_data process_data_withE /=.
by rewrite replace_no_infinities //; exact: no_infinities_dropna.
Qed.

(** The coercion of utils.py is all-or-nothing per column too. *)
Theorem utils_coercion_all_or_nothing df n ss :
  rectangular df -> 0 < nrows df ->
  column df n = Some [seq Text s | s <- ss] ->
  omap (fun out => column out n) (error_free (Utils.process_data parse df)) =
  Some (Some (if all (fun s => isSome (parse s)) ss
              then [seq Num x | x <- pmap parse ss]
              else [seq Text s | s <- ss])).
Proof.
move=> Hr Hn Hc; have [Hss H2] := text_column_dropped Hr Hn Hc.
rewrite utils_process_dataE dropna_dropna //=; congr Some.
exact: text_column_coerced.
Qed.

End UtilsFacts.

(** The two [validate_data] agree on tables with distinct column names. *)
Theorem utils_validate_data_distinct df :
  uniq (columns df) -> Utils.validate_data df = (validate_data (Some df)).1.
Proof.
rewrite /Utils.validate_data /validate_data any_duplicated => ->.
by case: ifP => // _; case: ifP.
Qed.

(** utils.py does not look at the names: it accepts every table with a row
    and two columns. *)
Theorem utils_validate_data_shape df :
  Utils.validate_data df = (0 < nrows df) && (2 <= size (columns df)).
Proof.
rewrite /Utils.validate_data df_emptyE.
case: (posnP (nrows df)) => //= _; case: (posnP (size (columns df))) => [->|] //= _.
by rewrite ltnNge; case: (2 <= _).
Qed.

(** ** Examples

    Each theorem with a hypothesis is run once on a concrete table, with
    [parse_decimal] as the parser and [px_model] as plotly. *)

(** The two columns of the specification: ["1","2","3"] becomes numeric,
    ["1","2","x"] stays as it is. *)
Lemma coercion_examples :
  column (process_data parse_decimal digits_table) "a" =
    Some [:: Num (Finite 1); Num (Finite 2); Num (Finite 3)] /\
  column (process_data parse_decimal digits_table) "b" =
    Some [:: Text "1"; Text "2"; Text "x"].
Proof.
split.
- exact: (proj2 (@coercion_all_or_nothing parse_decimal digits_table "a"
                   [:: "1"; "2"; "3"] erefl) isT isT).
- exact: (proj2 (@coercion_all_or_nothing parse_decimal digits_table "b"
                   [:: "1"; "2"; "x"] erefl) isT isT).
Defined.

(** The sales table is accepted. *)
Lemma validate_sales : (validate_data (Some sales)).1 = true.
Proof. by apply/(proj2 (validate_data_correct sales)). Defined.

(** An unknown chart kind is reported although a path column and the values
    column are missing too. *)
Lemma unknown_kind_before_columns :
  create_chart px_model update_layout_model true sales
    (Settings "Pie" (Some [:: "X"]) (Some "Y") None None 800 800)
  = (None, report true (UnknownChartKind "Pie")).
Proof.
exact: (proj2 (create_chart_first_failure px_model update_layout_model true
                 sales (Settings "Pie" (Some [:: "X"]) (Some "Y") None None
                          800 800))).
Defined.

(** C4 as stated fails: the first pass turns the row of infinities into an
    all-missing row and keeps it, the second pass drops it. *)
Lemma process_data_not_idempotent :
  process_data parse_decimal (process_data parse_decimal infinite_row_table)
  <> process_data parse_decimal infinite_row_table.
Proof. by move/(congr1 nrows). Qed.

(** A table of digit strings and a word: one pass is enough. *)
Lemma process_twice_digits :
  process_data parse_decimal (process_data parse_decimal digits_table)
  = process_data parse_decimal digits_table.
Proof.
exact: (proj2 (@process_data_idempotence parse_decimal digits_table isT) isT).
Defined.

(** The all-missing row and the all-missing column [b] are gone. *)
Lemma gaps_dropped :
  nrows (process_data parse_decimal gaps_table) = 2 /\
  columns (process_data parse_decimal gaps_table) = [:: "a"; "c"].
Proof.
have [_ Hrows Hcols _] :=
  @process_data_drops_all_missing parse_decimal gaps_table isT.
exact: conj Hrows Hcols.
Defined.

(** [path_columns = ["X"]] on a table without a column [X]. *)
Lemma missing_x :
  create_chart px_model update_layout_model false sales
    (Settings "Treemap" (Some [:: "X"]) None None None 800 800)
  = (None, [:: StError "Error creating visualization: Columns not found in data: X"]).
Proof.
exact: (@create_chart_missing_path_columns plot px_model update_layout_model
          false sales (Settings "Treemap" (Some [:: "X"]) None None None 800 800)
          [:: "X"] isT erefl isT).
Defined.

(** The color column "None" of the settings is as good as none. *)
Lemma none_is_unset :
  chart_call sales sunburst_settings =
  chart_call sales (with_color_column None sunburst_settings).
Proof.
have [_ H _ _] := sentinel_handling sales sunburst_settings.
exact: H isT.
Defined.

(** C9 as stated fails: the lowercase string "none" is looked up as a column
    name, and an empty color scheme, which is not "Default", attaches no
    palette. *)
Lemma lowercase_none_is_checked :
  chart_call sales (with_values_column (Some "none") sunburst_settings)
    = inl (ValuesColumnNotFound "none") /\
  omap (fun c => color_continuous_scale c.2)
       (if chart_call sales (with_color_scheme (Some "") sunburst_settings)
          is inr c then Some c else None)
    = Some None.
Proof. by []. Qed.

(** The row of infinities is still the first of two rows, all missing. *)
Lemma infinite_row_example :
  all_missing (row (process_data parse_decimal infinite_row_table) 0) /\
  nrows (process_data parse_decimal infinite_row_table) = 2.
Proof.
have [_ _ H] := @infinite_row_survives parse_decimal infinite_row_table 0
                  isT isT isT isT.
by split; [exact: H |].
Defined.

Lemma one_column_refused :
  (validate_data (Some (Frame 3 [:: ("a", [:: Text "x"; Text "y"; Text "z"])]))).1
  = false.
Proof.
exact: (@validate_data_too_few_columns
          (Frame 3 [:: ("a", [:: Text "x"; Text "y"; Text "z"])]) isT).
Defined.

Lemma repeated_name_refused :
  validate_data (Some (Frame 1 [:: ("a", [:: Text "x"]); ("a", [:: Text "y"]);
                                   ("b", [:: Text "z"])]))
  = invalid DuplicateColumns.
Proof.
exact: (@validate_data_duplicate_columns
          (Frame 1 [:: ("a", [:: Text "x"]); ("a", [:: Text "y"]);
                       ("b", [:: Text "z"])]) isT isT).
Defined.

Lemma utils_validate_sales : Utils.validate_data sales = true.
Proof. exact: (@utils_validate_data_distinct sales isT). Defined.

Lemma utils_process_digits :
  Utils.process_data parse_decimal digits_table
  = inr (process_data parse_decimal digits_table).
Proof. exact: (@utils_process_data_agrees parse_decimal digits_table isT). Defined.

Lemma utils_coercion_examples :
  omap (fun out => column out "a")
       (error_free (Utils.process_data parse_decimal digits_table))
    = Some (Some [:: Num (Finite 1); Num (Finite 2); Num (Finite 3)]) /\
  omap (fun out => column out "b")
       (error_free (Utils.process_data parse_decimal digits_table))
    = Some (Some [:: Text "1"; Text "2"; Text "x"]).
Proof.
split.
- exact: (@utils_coercion_all_or_nothing parse_decimal digits_table "a"
            [:: "1"; "2"; "3"] isT isT erefl).
- exact: (@utils_coercion_all_or_nothing parse_decimal digits_table "b"
            [:: "1"; "2"; "x"] isT isT erefl).
Defined.

(** With a [dropna] that raises, utils.py raises and visualization.py
    returns the table it was given, with a message. *)
Lemma utils_raises :
  Utils.process_data_with raising_pandas sales = inl (Exception "out of memory").
Proof. exact: (@utils_process_data_propagates raising_pandas sales _ erefl). Defined.

